(** * tcpretrans.bpf.c: the TCP retransmission probe

    A shallow embedding of [src/internal/ebpf/c/tcpretrans.bpf.c]: the
    [struct event] record, the [events] perf event array, the helper
    [read_sock_common] and the kprobe [tcp_retransmit_skb], followed by the
    properties of the probe that the specification states. *)

From Stdlib Require Import ZArith List Bool Lia.
From Stdlib Require Import Strings.Byte.
Import ListNotations.
Open Scope Z_scope.

(** ** Fixed-width unsigned integers *)

(** The unsigned integer types of the source ([u8], [u16], [u32]) and the
    [u64] that [bpf_get_current_pid_tgid] returns.  A value of such a type is
    a [Z]; storing into it keeps the low bits. *)
Inductive ctype : Type := u8 | u16 | u32 | u64.

Definition sizeof (t : ctype) : Z :=
  match t with u8 => 1 | u16 => 2 | u32 => 4 | u64 => 8 end.

Definition cast (t : ctype) (v : Z) : Z := v mod 2 ^ (8 * sizeof t).

Definition in_range (t : ctype) (v : Z) : Prop := 0 <= v < 2 ^ (8 * sizeof t).

(** ** Data model *)

(** [struct event] (lines 8-17).  [comm] is the [char comm[16]] array. *)
Record event : Type := mk_event {
  pid : Z;
  saddr : Z;
  daddr : Z;
  lport : Z;
  dport : Z;
  state : Z;
  type : Z;
  comm : list byte
}.

(** [sizeof(e->comm)] and [sizeof(e)]: 21 bytes of scalars, 16 of [comm],
    3 of tail padding to the 4-byte alignment of the struct. *)
Definition sizeof_comm : nat := 16.
Definition sizeof_event : nat := 40.

(** [struct event e = {};] (line 55). *)
Definition event_zero : event :=
  mk_event 0 0 0 0 0 0 0 (repeat x00 sizeof_comm).

(** Stores through the [struct event *e] pointer.  Each one converts the
    value to the type of the member it writes. *)
Definition set_pid (v : Z) (e : event) : event :=
  mk_event (cast u32 v) (saddr e) (daddr e) (lport e) (dport e) (state e) (type e) (comm e).
Definition set_saddr (v : Z) (e : event) : event :=
  mk_event (pid e) (cast u32 v) (daddr e) (lport e) (dport e) (state e) (type e) (comm e).
Definition set_daddr (v : Z) (e : event) : event :=
  mk_event (pid e) (saddr e) (cast u32 v) (lport e) (dport e) (state e) (type e) (comm e).
Definition set_lport (v : Z) (e : event) : event :=
  mk_event (pid e) (saddr e) (daddr e) (cast u16 v) (dport e) (state e) (type e) (comm e).
Definition set_dport (v : Z) (e : event) : event :=
  mk_event (pid e) (saddr e) (daddr e) (lport e) (cast u16 v) (state e) (type e) (comm e).
Definition set_state (v : Z) (e : event) : event :=
  mk_event (pid e) (saddr e) (daddr e) (lport e) (dport e) (cast u32 v) (type e) (comm e).
Definition set_type (v : Z) (e : event) : event :=
  mk_event (pid e) (saddr e) (daddr e) (lport e) (dport e) (state e) (cast u8 v) (comm e).
Definition set_comm (v : list byte) (e : event) : event :=
  mk_event (pid e) (saddr e) (daddr e) (lport e) (dport e) (state e) (type e) v.

(** The members of the kernel's [struct sock_common] that the probe reads,
    as a relocation-safe read finds them: [Some v] when the member can be
    read and holds [v], [None] when the read of that member fails. *)
Record sock_common : Type := mk_sock_common {
  skc_family : option Z;
  skc_rcv_saddr : option Z;
  skc_daddr : option Z;
  skc_num : option Z;
  skc_dport : option Z;
  skc_state : option Z
}.

(** [struct sock]: its first member is the [sock_common] header, which is
    what the cast [(struct sock_common * )sk] of line 56 reaches. *)
Record sock : Type := mk_sock { __sk_common : sock_common }.

(** The members hold values of their C types: [skc_family], [skc_num] and
    [skc_dport] are 16 bits wide, the two addresses 32, [skc_state] 8. *)
Definition member_ok (t : ctype) (m : option Z) : Prop :=
  match m with Some v => in_range t v | None => True end.

Definition sock_common_ok (skc : sock_common) : Prop :=
  member_ok u16 (skc_family skc) /\ member_ok u32 (skc_rcv_saddr skc) /\
  member_ok u32 (skc_daddr skc) /\ member_ok u16 (skc_num skc) /\
  member_ok u16 (skc_dport skc) /\ member_ok u8 (skc_state skc).

(** ** The kernel as the probe sees it *)

(** Calls of BPF helpers, logged in program order with the size argument
    each one is given. *)
Inductive helper_call : Type :=
| Get_current_pid_tgid
| Get_current_comm (size : Z)
| Probe_read_kernel (size : Z)
| Perf_event_output (size : Z).

(** The state a probe invocation runs in: the task scheduled on the
    executing CPU (the 64-bit value of [bpf_get_current_pid_tgid] and the
    task's command name), the index of that CPU, the [events] perf event
    array (lines 19-23) as the records submitted to it so far, oldest
    first and each with the CPU slot it went to, and the log of helper
    calls. *)
Record kernel : Type := mk_kernel {
  current_pid_tgid : Z;
  current_comm : list byte;
  current_cpu : Z;
  events : list (Z * event);
  calls : list helper_call
}.

Definition log (c : helper_call) (k : kernel) : kernel :=
  mk_kernel (current_pid_tgid k) (current_comm k) (current_cpu k)
            (events k) (calls k ++ [c]).

Definition submit (e : event) (k : kernel) : kernel :=
  mk_kernel (current_pid_tgid k) (current_comm k) (current_cpu k)
            (events k ++ [(current_cpu k, e)]) (calls k).

(** A BPF program fragment: it runs in a kernel state and leaves a result
    and the state after it. *)
Definition bpf (A : Type) : Type := kernel -> A * kernel.

Definition ret {A : Type} (a : A) : bpf A := fun k => (a, k).

Definition bind {A B : Type} (m : bpf A) (f : A -> bpf B) : bpf B :=
  fun k => let (a, k') := m k in f a k'.

Declare Scope bpf_scope.
Delimit Scope bpf_scope with bpf.
Notation "x <- m ;; f" := (bind m (fun x => f))
  (at level 61, m at next level, right associativity) : bpf_scope.
Notation "m ;;; f" := (bind m (fun _ => f))
  (at level 61, right associativity) : bpf_scope.

(** ** Helpers *)

(** Modelled from the spec: the kernel helper [bpf_get_current_pid_tgid]
    (declared in bpf/bpf_helpers.h, not part of the sources), which returns
    [tgid << 32 | pid] of the task scheduled on the executing CPU as a
    [u64]; section 4.1 step 2 of the spec. *)
Definition bpf_get_current_pid_tgid : bpf Z :=
  fun k => (cast u64 (current_pid_tgid k), log Get_current_pid_tgid k).

(** Modelled from the spec: the kernel helper [bpf_get_current_comm]
    (bpf/bpf_helpers.h), which fills a buffer of [size] bytes with the
    truncated command name of the current task: the name up to its first
    NUL and at most [size - 1] bytes of it, the rest of the buffer NUL. *)
Fixpoint copy_comm (size : nat) (src : list byte) : list byte :=
  match size with
  | O => []
  | S O => [x00]
  | S n =>
      match src with
      | [] => x00 :: copy_comm n []
      | c :: rest =>
          if Byte.eqb c x00 then x00 :: copy_comm n []
          else c :: copy_comm n rest
      end
  end.

Definition bpf_get_current_comm (size : nat) : bpf (list byte) :=
  fun k => (copy_comm size (current_comm k),
            log (Get_current_comm (Z.of_nat size)) k).

(** Modelled from the spec: the macro [BPF_CORE_READ] of
    bpf/bpf_core_read.h, the relocation-safe read of section 4.1.
    [BPF_CORE_READ(skc, member)] for a member of type [t] is one
    [bpf_probe_read_kernel] of [sizeof t] bytes into a temporary, whose
    value is the result.  The macro drops the status of the read; when the
    read fails the value is unavailable and the helper leaves the temporary
    zeroed. *)
Definition read_value (t : ctype) (m : option Z) : Z :=
  match m with Some v => cast t v | None => 0 end.

Definition BPF_CORE_READ (t : ctype) (skc : sock_common)
    (member : sock_common -> option Z) : bpf Z :=
  fun k => (read_value t (member skc), log (Probe_read_kernel (sizeof t)) k).

(** Modelled from the spec: the kernel helper [bpf_perf_event_output]
    (bpf/bpf_helpers.h) as called on line 59,
    [bpf_perf_event_output(ctx, &events, BPF_F_CURRENT_CPU, &e, sizeof(e))]:
    the record is handed to the slot of the executing CPU (section 4.1
    step 5).  What the channel does with a record it has no room for
    (section 4.2) happens behind this call and is not modelled. *)
Definition bpf_perf_event_output (e : event) : bpf Z :=
  fun k => (0, submit e (log (Perf_event_output (Z.of_nat sizeof_event)) k)).

(** Byte order of the machine the probe is compiled for. *)
Inductive byte_order : Type := little_endian | big_endian.

(** Modelled from the spec: [___bpf_swab16] of bpf/bpf_endian.h, on which
    [bpf_ntohs] rests: the two bytes of a 16-bit value exchanged. *)
Definition bpf_swab16 (x : Z) : Z :=
  cast u16 (Z.lor (Z.shiftr (Z.land x 65280) 8) (Z.shiftl (Z.land x 255) 8)).

(** Little-endian layout of the low [n] bytes of [v]. *)
Definition byte_of_Z (v : Z) : byte :=
  match Byte.of_N (Z.to_N (v mod 256)) with Some b => b | None => x00 end.

Fixpoint le_bytes (n : nat) (v : Z) : list byte :=
  match n with
  | O => []
  | S m => byte_of_Z v :: le_bytes m (v / 256)
  end.

(** What the headers outside this file fix for the machine the probe is
    built for: the numbers of the address families compared against in
    [read_sock_common], and the byte order.  The probe is modelled for any
    choice of them. *)
Class target : Type := {
  AF_INET : Z;
  AF_INET6 : Z;
  host : byte_order
}.

(** [struct sk_buff], the segment being retransmitted: the kprobe is handed
    a pointer to it and never reads through it. *)
Record sk_buff : Type := mk_sk_buff { skb_data : list byte }.

Section Probe.

Context {T : target}.

(** Modelled from the spec: [bpf_ntohs] of bpf/bpf_endian.h, network
    (big-endian) to host order for 16 bits: a byte swap on a little-endian
    host, nothing on a big-endian one. *)
Definition bpf_ntohs (x : Z) : Z :=
  match host with
  | little_endian => bpf_swab16 x
  | big_endian => cast u16 x
  end.

(** An integer of [n] bytes as it lies in memory on the host. *)
Definition int_bytes (n : nat) (v : Z) : list byte :=
  match host with
  | little_endian => le_bytes n v
  | big_endian => rev (le_bytes n v)
  end.

(** The [sizeof(e)] bytes of a record that [bpf_perf_event_output] copies
    out: the members at their offsets 0, 4, 8, 12, 14, 16, 20 and 21, and
    the three bytes of tail padding, zero since [e] starts as [{}]. *)
Definition event_bytes (e : event) : list byte :=
  int_bytes 4 (pid e) ++ int_bytes 4 (saddr e) ++ int_bytes 4 (daddr e) ++
  int_bytes 2 (lport e) ++ int_bytes 2 (dport e) ++ int_bytes 4 (state e) ++
  int_bytes 1 (type e) ++ comm e ++ [x00; x00; x00].

Open Scope bpf_scope.

(** ** read_sock_common (lines 26-51) *)

(** Lines 44-50: what follows the address-family test on the IPv4 path. *)
Definition read_ports_state (skc : sock_common) (e : event) : bpf (Z * event) :=
  num <- BPF_CORE_READ u16 skc skc_num ;;
  let e := set_lport num e in
  port <- BPF_CORE_READ u16 skc skc_dport ;;
  let e := set_dport port e in
  let e := set_dport (bpf_ntohs (dport e)) e in
  st <- BPF_CORE_READ u8 skc skc_state ;;
  let e := set_state st e in
  ret (1, e).

Definition read_sock_common (skc : sock_common) (e : event) : bpf (Z * event) :=
  pid_tgid <- bpf_get_current_pid_tgid ;;
  let e := set_pid (Z.shiftr pid_tgid 32) e in
  name <- bpf_get_current_comm sizeof_comm ;;
  let e := set_comm name e in
  family <- BPF_CORE_READ u16 skc skc_family ;;
  if family =? AF_INET then
    let e := set_type 1 e in
    src <- BPF_CORE_READ u32 skc skc_rcv_saddr ;;
    let e := set_saddr src e in
    dst <- BPF_CORE_READ u32 skc skc_daddr ;;
    let e := set_daddr dst e in
    read_ports_state skc e
  else if family =? AF_INET6 then
    let e := set_type 2 e in
    ret (0, e)
  else
    ret (0, e).

(** ** The kprobe on tcp_retransmit_skb (lines 53-63) *)

Definition tcp_retransmit_skb (sk : sock) (skb : sk_buff) : bpf Z :=
  let e := event_zero in
  let skc := __sk_common sk in
  r <- read_sock_common skc e ;;
  (if fst r =? 0 then ret 0 else bpf_perf_event_output (snd r)) ;;;
  ret 0.

(** The records an invocation adds to [events]. *)
Definition emitted (sk : sock) (skb : sk_buff) (k : kernel) : list (Z * event) :=
  skipn (length (events k)) (events (snd (tcp_retransmit_skb sk skb k))).

(** The process id the probe reports: the upper half of the value of
    [bpf_get_current_pid_tgid] (line 27). *)
Definition current_pid (k : kernel) : Z :=
  Z.shiftr (cast u64 (current_pid_tgid k)) 32.

(** The record of an IPv4 capture in closed form, member by member. *)
Definition capture (k : kernel) (skc : sock_common) : event :=
  mk_event (current_pid k)
           (read_value u32 (skc_rcv_saddr skc))
           (read_value u32 (skc_daddr skc))
           (read_value u16 (skc_num skc))
           (bpf_ntohs (read_value u16 (skc_dport skc)))
           (read_value u8 (skc_state skc))
           1
           (copy_comm sizeof_comm (current_comm k)).

(** The helper calls of the two paths through the probe. *)
Definition calls_skipped : list helper_call :=
  [Get_current_pid_tgid; Get_current_comm 16; Probe_read_kernel 2].

Definition calls_captured : list helper_call :=
  [Get_current_pid_tgid; Get_current_comm 16; Probe_read_kernel 2;
   Probe_read_kernel 4; Probe_read_kernel 4; Probe_read_kernel 2;
   Probe_read_kernel 2; Probe_read_kernel 1; Perf_event_output 40].

Definition after_calls (k : kernel) (l : list helper_call) : kernel :=
  mk_kernel (current_pid_tgid k) (current_comm k) (current_cpu k)
            (events k) (calls k ++ l).

Definition is_read (c : helper_call) : bool :=
  match c with Probe_read_kernel _ => true | _ => false end.

(** Between two invocations another task may be scheduled and the next
    retransmission may run on another CPU; [events] is left as it is. *)
Definition reschedule (pid_tgid : Z) (name : list byte) (cpu : Z)
    (k : kernel) : kernel :=
  mk_kernel pid_tgid name cpu (events k) (calls k).

(** The kernel states that arise once the probe is attached: [events]
    starts empty and only invocations of the probe write to it. *)
Inductive reachable : kernel -> Prop :=
| reach_attach (pid_tgid : Z) (name : list byte) (cpu : Z) :
    reachable (mk_kernel pid_tgid name cpu [] [])
| reach_reschedule (pid_tgid : Z) (name : list byte) (cpu : Z) (k : kernel) :
    reachable k -> reachable (reschedule pid_tgid name cpu k)
| reach_probe (sk : sock) (skb : sk_buff) (k : kernel) :
    reachable k -> reachable (snd (tcp_retransmit_skb sk skb k)).

(** One firing of the kprobe: the task scheduled on the executing CPU, the
    CPU, and the socket and segment handed to the probe. *)
Record invocation : Type := mk_invocation {
  inv_pid_tgid : Z;
  inv_comm : list byte;
  inv_cpu : Z;
  inv_sk : sock;
  inv_skb : sk_buff
}.

(** The probe run for a history of invocations, oldest first, each one
    starting from the [events] the one before it left. *)
Fixpoint run_invocations (l : list invocation) (k : kernel) : kernel :=
  match l with
  | [] => k
  | i :: l' =>
      run_invocations l'
        (snd (tcp_retransmit_skb (inv_sk i) (inv_skb i)
                (reschedule (inv_pid_tgid i) (inv_comm i) (inv_cpu i) k)))
  end.

(** A record is fully populated by an invocation when it is what
    [read_sock_common] leaves in the buffer, returning 1, for the socket and
    the task of that invocation, whatever the buffer held before and
    whatever [events] holds: every member was stored by that call (an
    unreadable member as the 0 its read yields). *)
Definition written_by (i : invocation) (e : event) : Prop :=
  forall (e0 : event) (k : kernel),
    current_pid_tgid k = inv_pid_tgid i ->
    current_comm k = inv_comm i ->
    fst (read_sock_common (__sk_common (inv_sk i)) e0 k) = (1, e).

(** A record whose members hold values of their types and whose [comm]
    fills its sixteen bytes. *)
Definition event_ok (e : event) : Prop :=
  in_range u32 (pid e) /\ in_range u32 (saddr e) /\ in_range u32 (daddr e) /\
  in_range u16 (lport e) /\ in_range u16 (dport e) /\ in_range u32 (state e) /\
  in_range u8 (type e) /\ length (comm e) = sizeof_comm.

(** The value that [n] bytes in little-endian order stand for. *)
Fixpoint le_value (l : list byte) : Z :=
  match l with
  | [] => 0
  | b :: l' => Z.of_N (Byte.to_N b) + 256 * le_value l'
  end.

(** The test of line 31 on the family the probe reads from a socket. *)
Definition family_is_inet (sk : sock) : bool :=
  read_value u16 (skc_family (__sk_common sk)) =? AF_INET.

(** The kprobe fired once for each retransmission of a list, in order,
    each invocation starting in the state the one before it left. *)
Fixpoint run_probes (l : list (sock * sk_buff)) (k : kernel) : kernel :=
  match l with
  | [] => k
  | (sk, skb) :: l' => run_probes l' (snd (tcp_retransmit_skb sk skb k))
  end.

End Probe.

(** ** The probe on a little-endian Linux host *)

(** Linux numbers the families [AF_INET = 2] and [AF_INET6 = 10]. *)
Definition linux_le : target :=
  {| AF_INET := 2; AF_INET6 := 10; host := little_endian |}.

Definition linux_probe : sock -> sk_buff -> bpf Z :=
  tcp_retransmit_skb (T := linux_le).

Definition linux_emitted : sock -> sk_buff -> kernel -> list (Z * event) :=
  emitted (T := linux_le).

Definition skb_empty : sk_buff := mk_sk_buff [].
Definition skb_segment : sk_buff := mk_sk_buff [x47; x45; x54].

(** A loopback connection 127.0.0.1:5000 -> 127.0.0.1:40000 in state
    [TCP_ESTABLISHED]: the addresses and the remote port as a little-endian
    host reads their network-order bytes (7f 00 00 01 and 9c 40). *)
Definition skc_loopback : sock_common :=
  mk_sock_common (Some 2) (Some 16777343) (Some 16777343)
                 (Some 5000) (Some 16540) (Some 1).

Definition sk_loopback : sock := mk_sock skc_loopback.

(** The same connection over IPv6, and over IPv4 with a local address that
    cannot be read. *)
Definition sk_loopback6 : sock :=
  mk_sock (mk_sock_common (Some 10) (Some 0) (Some 0)
                          (Some 5000) (Some 16540) (Some 1)).

Definition sk_unreadable_saddr : sock :=
  mk_sock (mk_sock_common (Some 2) None (Some 16777343)
                          (Some 5000) (Some 16540) (Some 1)).

(** A socket pointer through which nothing can be read. *)
Definition sk_unreadable : sock :=
  mk_sock (mk_sock_common None None None None None None).

(** Task "curl", tgid 1234 and thread 1240, on CPU 3, nothing emitted yet;
    and task "sshd", tgid 77, on CPU 0 with one record already there. *)
Definition comm_curl : list byte := [x63; x75; x72; x6c].
Definition comm_sshd : list byte := [x73; x73; x68; x64].

Definition k_curl : kernel :=
  mk_kernel (1234 * 4294967296 + 1240) comm_curl 3 [] [].

Definition e_loopback : event :=
  mk_event 1234 16777343 16777343 5000 40000 1 1
           (comm_curl ++ repeat x00 12).

Definition k_sshd : kernel :=
  mk_kernel (77 * 4294967296 + 77) comm_sshd 0 [(3, e_loopback)]
            [Get_current_pid_tgid].

(** Another thread of "curl" on another CPU. *)
Definition k_curl_thread : kernel :=
  mk_kernel (1234 * 4294967296 + 1299) comm_curl 1 [(3, e_loopback)] [].

(** A history on an empty channel: the loopback connection retransmits
    while "curl" runs on CPU 3, then the IPv6 one while "sshd" runs on
    CPU 0, then the loopback one again under "sshd". *)
Definition k_idle : kernel := mk_kernel 0 [] 0 [] [].

Definition history_loopback : list invocation :=
  [mk_invocation (1234 * 4294967296 + 1240) comm_curl 3 sk_loopback skb_empty;
   mk_invocation (77 * 4294967296 + 77) comm_sshd 0 sk_loopback6 skb_segment;
   mk_invocation (77 * 4294967296 + 77) comm_sshd 0 sk_loopback skb_segment].

Section Properties.

Context {T : target}.

(** ** Arithmetic of the fixed-width types *)

Lemma cast_in_range (t : ctype) (v : Z) : in_range t (cast t v).
Proof.
  unfold in_range, cast. apply Z.mod_pos_bound.
  destruct t; reflexivity.
Qed.

Lemma cast_id (t : ctype) (v : Z) : in_range t v -> cast t v = v.
Proof. unfold in_range, cast. intros H. now apply Z.mod_small. Qed.

Lemma read_value_in_range (t : ctype) (m : option Z) :
  in_range t (read_value t m).
Proof.
  destruct m as [v|]; simpl.
  - apply cast_in_range.
  - destruct t; unfold in_range; simpl; lia.
Qed.

Lemma read_value_some (t : ctype) (v : Z) :
  in_range t v -> read_value t (Some v) = v.
Proof. apply cast_id. Qed.

Lemma widen_u8_u32 (v : Z) : in_range u8 v -> in_range u32 v.
Proof. unfold in_range; simpl; lia. Qed.

Lemma current_pid_in_range (k : kernel) : in_range u32 (current_pid k).
Proof.
  unfold current_pid.
  pose proof (cast_in_range u64 (current_pid_tgid k)) as H.
  unfold in_range in *. rewrite Z.shiftr_div_pow2 by lia.
  change (2 ^ (8 * sizeof u64)) with (2 ^ 32 * 2 ^ 32) in H.
  change (2 ^ (8 * sizeof u32)) with (2 ^ 32).
  split.
  - apply Z.div_pos; lia.
  - apply Z.div_lt_upper_bound; lia.
Qed.

Lemma lor_shiftl_add (a b n : Z) :
  0 <= n -> 0 <= a < 2 ^ n -> Z.lor a (Z.shiftl b n) = a + b * 2 ^ n.
Proof.
  intros Hn Ha.
  assert (Hz : Z.land a (Z.shiftl b n) = 0).
  { apply Z.bits_inj'. intros i Hi.
    rewrite Z.land_spec, Z.bits_0.
    destruct (Z.lt_ge_cases i n) as [Hlt|Hge].
    - rewrite (Z.shiftl_spec_low b n i Hlt). apply andb_false_r.
    - rewrite <- (Z.mod_small a (2 ^ n)) by lia.
      rewrite Z.mod_pow2_bits_high by lia. reflexivity. }
  rewrite <- Z.lxor_lor by exact Hz.
  rewrite <- Z.add_nocarry_lxor by exact Hz.
  rewrite Z.shiftl_mul_pow2 by lia. reflexivity.
Qed.

(** The swap in arithmetic: the low byte becomes the high one. *)
Lemma bpf_swab16_bytes (x : Z) :
  in_range u16 x -> bpf_swab16 x = 256 * (x mod 256) + x / 256.
Proof.
  unfold in_range, bpf_swab16, cast.
  change (2 ^ (8 * sizeof u16)) with 65536. intros Hx.
  rewrite Z.shiftr_land. change (Z.shiftr 65280 8) with (Z.ones 8).
  change 255 with (Z.ones 8).
  rewrite !Z.land_ones by lia. rewrite Z.shiftr_div_pow2 by lia.
  change (2 ^ 8) with 256.
  assert (H1 : 0 <= x / 256 < 256).
  { split; [apply Z.div_pos; lia | apply Z.div_lt_upper_bound; lia]. }
  rewrite (Z.mod_small (x / 256) 256) by lia.
  rewrite lor_shiftl_add by (change (2 ^ 8) with 256; lia).
  change (2 ^ 8) with 256.
  pose proof (Z.mod_pos_bound x 256 ltac:(lia)).
  rewrite Z.mod_small; lia.
Qed.

Lemma bpf_ntohs_in_range (x : Z) : in_range u16 (bpf_ntohs x).
Proof. unfold bpf_ntohs. destruct host; apply cast_in_range. Qed.

(** ** One run of [read_sock_common] and of the probe *)

Ltac run_probe :=
  unfold tcp_retransmit_skb, read_sock_common, read_ports_state, bind, ret,
    BPF_CORE_READ, bpf_get_current_pid_tgid, bpf_get_current_comm,
    bpf_perf_event_output, submit, log, after_calls;
  cbn [fst snd current_pid_tgid current_comm current_cpu events calls].

(** On the IPv4 path every member of [e] is overwritten: the outcome is
    [capture] whatever [e] held before. *)
Lemma read_sock_common_inet (skc : sock_common) (e : event) (k : kernel) :
  read_value u16 (skc_family skc) = AF_INET ->
  read_sock_common skc e k =
    ((1, capture k skc), after_calls k (removelast calls_captured)).
Proof.
  intros Hf. run_probe. rewrite Hf, Z.eqb_refl.
  cbn [fst snd current_pid_tgid current_comm current_cpu events calls].
  f_equal.
  - f_equal. destruct e.
    cbv [capture set_pid set_comm set_type set_saddr set_daddr
      set_lport set_dport set_state pid saddr daddr lport dport state type comm].
    fold (current_pid k).
    rewrite (cast_id u32 (current_pid k) (current_pid_in_range k)).
    rewrite !(cast_id _ _ (read_value_in_range _ _)).
    rewrite (cast_id u16 _ (bpf_ntohs_in_range _)).
    rewrite (cast_id u32 _ (widen_u8_u32 _ (read_value_in_range u8 _))).
    reflexivity.
  - f_equal. rewrite <- !app_assoc. reflexivity.
Qed.

(** On the other two paths the function returns 0 after the family read. *)
Lemma read_sock_common_other (skc : sock_common) (e : event) (k : kernel) :
  read_value u16 (skc_family skc) <> AF_INET ->
  exists e', read_sock_common skc e k = ((0, e'), after_calls k calls_skipped).
Proof.
  intros Hf. run_probe. apply Z.eqb_neq in Hf. rewrite Hf.
  destruct (read_value u16 (skc_family skc) =? AF_INET6);
    eexists; rewrite <- !app_assoc; reflexivity.
Qed.

Lemma probe_inet (sk : sock) (skb : sk_buff) (k : kernel) :
  read_value u16 (skc_family (__sk_common sk)) = AF_INET ->
  tcp_retransmit_skb sk skb k =
    (0, mk_kernel (current_pid_tgid k) (current_comm k) (current_cpu k)
          (events k ++ [(current_cpu k, capture k (__sk_common sk))])
          (calls k ++ calls_captured)).
Proof.
  intros Hf. unfold tcp_retransmit_skb, bind.
  rewrite (read_sock_common_inet _ _ _ Hf).
  cbn [fst snd Z.eqb]. run_probe.
  f_equal. f_equal. rewrite <- app_assoc. reflexivity.
Qed.

Lemma probe_other (sk : sock) (skb : sk_buff) (k : kernel) :
  read_value u16 (skc_family (__sk_common sk)) <> AF_INET ->
  tcp_retransmit_skb sk skb k = (0, after_calls k calls_skipped).
Proof.
  intros Hf. unfold tcp_retransmit_skb, bind.
  destruct (read_sock_common_other (__sk_common sk) event_zero k Hf) as [e' ->].
  reflexivity.
Qed.

Lemma skipn_length_app {A : Type} (l l' : list A) :
  skipn (length l) (l ++ l') = l'.
Proof. induction l as [|a l IH]; simpl; [reflexivity | exact IH]. Qed.

Lemma emitted_inet (sk : sock) (skb : sk_buff) (k : kernel) :
  read_value u16 (skc_family (__sk_common sk)) = AF_INET ->
  emitted sk skb k = [(current_cpu k, capture k (__sk_common sk))].
Proof.
  intros Hf. unfold emitted. rewrite (probe_inet _ _ _ Hf).
  apply skipn_length_app.
Qed.

Lemma emitted_other (sk : sock) (skb : sk_buff) (k : kernel) :
  read_value u16 (skc_family (__sk_common sk)) <> AF_INET ->
  emitted sk skb k = [].
Proof.
  intros Hf. unfold emitted. rewrite (probe_other _ _ _ Hf).
  unfold after_calls; cbn [snd events]. apply skipn_all.
Qed.

(** The records of [events] after an invocation are those before it
    followed by the emitted ones. *)
Lemma events_after (sk : sock) (skb : sk_buff) (k : kernel) :
  events (snd (tcp_retransmit_skb sk skb k)) = events k ++ emitted sk skb k.
Proof.
  destruct (Z.eq_dec (read_value u16 (skc_family (__sk_common sk))) AF_INET) as [Hf|Hf].
  - rewrite (emitted_inet _ _ _ Hf), (probe_inet _ _ _ Hf). reflexivity.
  - rewrite (emitted_other _ _ _ Hf), (probe_other _ _ _ Hf).
    unfold after_calls; cbn [snd events]. now rewrite app_nil_r.
Qed.

(** An emitted record is a complete capture. *)
Lemma emitted_capture (sk : sock) (skb : sk_buff) (k : kernel) (cpu : Z) (e : event) :
  In (cpu, e) (emitted sk skb k) ->
  read_value u16 (skc_family (__sk_common sk)) = AF_INET /\
  cpu = current_cpu k /\ e = capture k (__sk_common sk).
Proof.
  destruct (Z.eq_dec (read_value u16 (skc_family (__sk_common sk))) AF_INET) as [Hf|Hf].
  - rewrite (emitted_inet _ _ _ Hf). intros [H|[]]. inversion H. auto.
  - rewrite (emitted_other _ _ _ Hf). intros [].
Qed.

(** ** The bytes of a captured record *)

Lemma copy_comm_length (size : nat) (src : list byte) :
  length (copy_comm size src) = size.
Proof.
  revert src. induction size as [|n IH]; intros src; [reflexivity|].
  destruct n as [|n]; [reflexivity|].
  change (copy_comm (S (S n)) src) with
    (match src with
     | [] => x00 :: copy_comm (S n) []
     | c :: rest =>
         if Byte.eqb c x00 then x00 :: copy_comm (S n) []
         else c :: copy_comm (S n) rest
     end).
  destruct src as [|c rest]; [|destruct (Byte.eqb c x00)];
    cbn [length]; now rewrite IH.
Qed.

Lemma int_bytes_length (n : nat) (v : Z) : length (int_bytes n v) = n.
Proof.
  assert (H : forall m w, length (le_bytes m w) = m).
  { induction m as [|m IH]; intros w; simpl; [reflexivity | now rewrite IH]. }
  unfold int_bytes. destruct host; [|rewrite length_rev]; apply H.
Qed.

(** Every captured record fills the [sizeof(e)] bytes handed to
    [bpf_perf_event_output]. *)
Lemma capture_bytes_length (k : kernel) (skc : sock_common) :
  length (event_bytes (capture k skc)) = sizeof_event.
Proof.
  unfold event_bytes. rewrite !length_app, !int_bytes_length.
  unfold capture; cbn [comm]. rewrite copy_comm_length. reflexivity.
Qed.

(** ** Properties of the probe *)

(** C1: for every invocation in which the socket's address-family member is
    IPv4 ([AF_INET], a 16-bit value), exactly one record is appended to
    [events], in the slot of the executing CPU, and its address family tag
    is 1. *)
Theorem ipv4_emits_one_record (sk : sock) (skb : sk_buff) (k : kernel) :
  in_range u16 AF_INET ->
  skc_family (__sk_common sk) = Some AF_INET ->
  exists e : event,
    events (snd (tcp_retransmit_skb sk skb k)) =
      events k ++ [(current_cpu k, e)] /\
    type e = 1.
Proof.
  intros Hr Hfam.
  assert (Hf : read_value u16 (skc_family (__sk_common sk)) = AF_INET).
  { rewrite Hfam. now apply read_value_some. }
  exists (capture k (__sk_common sk)). split.
  - rewrite events_after, (emitted_inet _ _ _ Hf). reflexivity.
  - reflexivity.
Qed.

(** C2: when the address-family member is IPv6 ([AF_INET6]), and likewise
    when it is any family other than IPv4 and IPv6, the invocation adds no
    record to [events]. *)
Theorem other_families_emit_nothing
    (sk : sock) (skb : sk_buff) (k : kernel) (f : Z) :
  AF_INET6 <> AF_INET ->
  in_range u16 f ->
  skc_family (__sk_common sk) = Some f ->
  f = AF_INET6 \/ (f <> AF_INET /\ f <> AF_INET6) ->
  events (snd (tcp_retransmit_skb sk skb k)) = events k.
Proof.
  intros Hneq Hr Hfam Hcase.
  assert (Hf : read_value u16 (skc_family (__sk_common sk)) <> AF_INET).
  { rewrite Hfam, (read_value_some _ _ Hr).
    destruct Hcase as [->|[H _]]; assumption. }
  rewrite events_after, (emitted_other _ _ _ Hf). apply app_nil_r.
Qed.

Lemma capture_same_task (k k' : kernel) (skc : sock_common) :
  current_pid_tgid k = current_pid_tgid k' ->
  current_comm k = current_comm k' ->
  capture k skc = capture k' skc.
Proof.
  intros Hp Hc. unfold capture, current_pid. now rewrite Hp, Hc.
Qed.

(** Where a record of [events] comes from after a history of invocations:
    it was there before, or one invocation of the history captured it. *)
Lemma run_invocations_origin
    (l : list invocation) (k : kernel) (cpu : Z) (e : event) :
  In (cpu, e) (events (run_invocations l k)) ->
  In (cpu, e) (events k) \/
  exists i : invocation,
    In i l /\ cpu = inv_cpu i /\
    read_value u16 (skc_family (__sk_common (inv_sk i))) = AF_INET /\
    e = capture (reschedule (inv_pid_tgid i) (inv_comm i) (inv_cpu i) k)
                (__sk_common (inv_sk i)).
Proof.
  revert k. induction l as [|i l IH]; intros k Hin; [now left|].
  cbn [run_invocations] in Hin. apply IH in Hin.
  destruct Hin as [Hin|(j & Hj & Hcpu & Hfam & He)].
  - rewrite events_after in Hin. apply in_app_or in Hin.
    destruct Hin as [Hin|Hin]; [now left|].
    apply emitted_capture in Hin. destruct Hin as (Hf & Hcpu & He).
    right. exists i. split; [now left|]. now repeat split.
  - right. exists j. split; [now right|]. repeat split; assumption.
Qed.

(** C3: every record that reaches [events], after any history of
    invocations on an empty channel, carries address family tag 1 (hence
    never 2 nor any other value) and was fully populated by an invocation
    of that history: it sits in the slot of that invocation's CPU and is
    what [read_sock_common] wrote, returning 1, for that invocation's
    socket and task, with no member left over from the buffer. *)
Theorem channel_records_populated_ipv4
    (l : list invocation) (k : kernel) (cpu : Z) (e : event) :
  events k = [] ->
  In (cpu, e) (events (run_invocations l k)) ->
  type e = 1 /\
  exists i : invocation, In i l /\ cpu = inv_cpu i /\ written_by i e.
Proof.
  intros Hempty Hin. apply run_invocations_origin in Hin.
  rewrite Hempty in Hin.
  destruct Hin as [[]|(i & Hi & Hcpu & Hf & ->)].
  split; [reflexivity|].
  exists i. split; [exact Hi|]. split; [exact Hcpu|].
  intros e0 k' Hp Hc.
  rewrite (read_sock_common_inet _ _ _ Hf). cbn [fst]. f_equal.
  apply capture_same_task; cbn [reschedule current_pid_tgid current_comm];
    assumption.
Qed.

(** C4: in every emitted record the remote port is [bpf_ntohs] of the raw
    [skc_dport] (on a little-endian host its two bytes exchanged, on a
    big-endian host the value itself), while the local port and the source
    and destination addresses are the values of [skc_num], [skc_rcv_saddr]
    and [skc_daddr] unchanged. *)
Theorem remote_port_swapped_rest_verbatim
    (sk : sock) (skb : sk_buff) (k : kernel) (cpu : Z) (e : event)
    (sa da lp dp : Z) :
  In (cpu, e) (emitted sk skb k) ->
  sock_common_ok (__sk_common sk) ->
  skc_rcv_saddr (__sk_common sk) = Some sa ->
  skc_daddr (__sk_common sk) = Some da ->
  skc_num (__sk_common sk) = Some lp ->
  skc_dport (__sk_common sk) = Some dp ->
  dport e = bpf_ntohs dp /\
  (host = little_endian -> dport e = 256 * (dp mod 256) + dp / 256) /\
  (host = big_endian -> dport e = dp) /\
  lport e = lp /\ saddr e = sa /\ daddr e = da.
Proof.
  intros Hin Hok Hsa Hda Hlp Hdp.
  apply emitted_capture in Hin. destruct Hin as (_ & _ & ->).
  destruct Hok as (_ & Hs & Hd & Hn & Hp & _).
  rewrite Hsa in Hs. rewrite Hda in Hd. rewrite Hlp in Hn. rewrite Hdp in Hp.
  cbn [member_ok] in Hs, Hd, Hn, Hp.
  unfold capture; cbn [dport lport saddr daddr].
  rewrite Hsa, Hda, Hlp, Hdp.
  rewrite !read_value_some by assumption.
  repeat split.
  - intros Hh. unfold bpf_ntohs. rewrite Hh. now apply bpf_swab16_bytes.
  - intros Hh. unfold bpf_ntohs. rewrite Hh. now apply cast_id.
Qed.

(** C5: two captures from the same socket state, whatever task is running
    and whatever else differs between the two invocations, yield records
    with the same source address, destination address, local port, remote
    port and connection state. *)
Theorem capture_twice_same_connection_fields
    (sk : sock) (skb1 skb2 : sk_buff) (k1 k2 : kernel)
    (cpu1 cpu2 : Z) (e1 e2 : event) :
  In (cpu1, e1) (emitted sk skb1 k1) ->
  In (cpu2, e2) (emitted sk skb2 k2) ->
  saddr e1 = saddr e2 /\ daddr e1 = daddr e2 /\ lport e1 = lport e2 /\
  dport e1 = dport e2 /\ state e1 = state e2.
Proof.
  intros H1 H2.
  apply emitted_capture in H1. destruct H1 as (_ & _ & ->).
  apply emitted_capture in H2. destruct H2 as (_ & _ & ->).
  repeat split.
Qed.

(** C6: the probe returns 0 on every invocation, whatever the address
    family, whether or not the members could be read and whether or not a
    record was emitted. *)
Theorem probe_returns_zero (sk : sock) (skb : sk_buff) (k : kernel) :
  fst (tcp_retransmit_skb sk skb k) = 0.
Proof.
  destruct (Z.eq_dec (read_value u16 (skc_family (__sk_common sk))) AF_INET)
    as [Hf|Hf].
  - now rewrite (probe_inet _ _ _ Hf).
  - now rewrite (probe_other _ _ _ Hf).
Qed.

(** C7: every invocation returns, having made one of two fixed sequences of
    helper calls: at most nine calls, of which at most six are reads of
    socket members. *)
Theorem probe_bounded_calls (sk : sock) (skb : sk_buff) (k : kernel) :
  exists (r : Z) (k' : kernel) (l : list helper_call),
    tcp_retransmit_skb sk skb k = (r, k') /\
    calls k' = calls k ++ l /\
    (l = calls_skipped \/ l = calls_captured) /\
    (length l <= 9)%nat /\
    (length (filter is_read l) <= 6)%nat.
Proof.
  destruct (Z.eq_dec (read_value u16 (skc_family (__sk_common sk))) AF_INET)
    as [Hf|Hf].
  - eexists _, _, calls_captured. rewrite (probe_inet _ _ _ Hf).
    split; [reflexivity|]. cbn [calls]. split; [reflexivity|].
    split; [now right|]. split; simpl; lia.
  - eexists _, _, calls_skipped. rewrite (probe_other _ _ _ Hf).
    split; [reflexivity|]. unfold after_calls; cbn [calls].
    split; [reflexivity|]. split; [now left|]. split; simpl; lia.
Qed.

(** C8, as the code has it: the probe does not test whether a read
    succeeded.  When the address family read is [AF_INET] one record is
    emitted whether or not the address and port members are readable, and
    each unreadable one among them is reported as 0. *)
Theorem unreadable_members_reported_as_zero
    (sk : sock) (skb : sk_buff) (k : kernel) :
  in_range u16 AF_INET ->
  skc_family (__sk_common sk) = Some AF_INET ->
  exists e : event,
    emitted sk skb k = [(current_cpu k, e)] /\
    (skc_rcv_saddr (__sk_common sk) = None -> saddr e = 0) /\
    (skc_daddr (__sk_common sk) = None -> daddr e = 0) /\
    (skc_num (__sk_common sk) = None -> lport e = 0) /\
    (skc_dport (__sk_common sk) = None -> dport e = 0).
Proof.
  intros Hr Hfam.
  assert (Hf : read_value u16 (skc_family (__sk_common sk)) = AF_INET).
  { rewrite Hfam. now apply read_value_some. }
  exists (capture k (__sk_common sk)).
  split; [exact (emitted_inet _ _ _ Hf)|].
  unfold capture; cbn [saddr daddr lport dport].
  repeat split; intros ->; try reflexivity.
  unfold bpf_ntohs. destruct host; reflexivity.
Qed.

(** C9: in every emitted record the connection state lies between 0 and
    255: it is the single byte read from [skc_state], zero-extended. *)
Theorem state_fits_a_byte
    (sk : sock) (skb : sk_buff) (k : kernel) (cpu : Z) (e : event) :
  In (cpu, e) (emitted sk skb k) ->
  0 <= state e <= 255.
Proof.
  intros Hin. apply emitted_capture in Hin. destruct Hin as (_ & _ & ->).
  unfold capture; cbn [state].
  pose proof (read_value_in_range u8 (skc_state (__sk_common sk))) as H.
  unfold in_range in H. change (2 ^ (8 * sizeof u8)) with 256 in H. lia.
Qed.

(** C10: two invocations that see the same [sock_common] members and the
    same current task (same pid, same command name) have the same outcome,
    whatever else differs (the thread id, the CPU, the segment buffer, what
    [events] already holds): the same return value, the same decision to
    emit, and records that are equal, also byte for byte. *)
Theorem probe_deterministic
    (sk1 sk2 : sock) (skb1 skb2 : sk_buff) (k1 k2 : kernel) :
  __sk_common sk1 = __sk_common sk2 ->
  current_pid k1 = current_pid k2 ->
  current_comm k1 = current_comm k2 ->
  fst (tcp_retransmit_skb sk1 skb1 k1) = fst (tcp_retransmit_skb sk2 skb2 k2) /\
  map snd (emitted sk1 skb1 k1) = map snd (emitted sk2 skb2 k2) /\
  map event_bytes (map snd (emitted sk1 skb1 k1)) =
    map event_bytes (map snd (emitted sk2 skb2 k2)).
Proof.
  intros Hskc Hpid Hcomm.
  destruct (Z.eq_dec (read_value u16 (skc_family (__sk_common sk1))) AF_INET)
    as [Hf1|Hf1]; pose proof Hf1 as Hf2; rewrite Hskc in Hf2.
  - rewrite (probe_inet _ _ _ Hf1), (probe_inet _ _ _ Hf2).
    rewrite (emitted_inet _ _ _ Hf1), (emitted_inet _ _ _ Hf2).
    cbn [map fst snd].
    assert (Hrec : capture k1 (__sk_common sk1) = capture k2 (__sk_common sk2)).
    { unfold capture. now rewrite Hskc, Hpid, Hcomm. }
    rewrite Hrec. repeat split.
  - rewrite (probe_other _ _ _ Hf1), (probe_other _ _ _ Hf2).
    rewrite (emitted_other _ _ _ Hf1), (emitted_other _ _ _ Hf2).
    repeat split.
Qed.

End Properties.

Example loopback_capture :
  linux_probe sk_loopback skb_empty k_curl =
    (0, mk_kernel (1234 * 4294967296 + 1240) comm_curl 3 [(3, e_loopback)]
          [Get_current_pid_tgid; Get_current_comm 16; Probe_read_kernel 2;
           Probe_read_kernel 4; Probe_read_kernel 4; Probe_read_kernel 2;
           Probe_read_kernel 2; Probe_read_kernel 1; Perf_event_output 40]).
Proof. vm_compute. reflexivity. Qed.

Example loopback6_skipped :
  linux_probe sk_loopback6 skb_empty k_curl =
    (0, mk_kernel (1234 * 4294967296 + 1240) comm_curl 3 []
          [Get_current_pid_tgid; Get_current_comm 16; Probe_read_kernel 2]).
Proof. vm_compute. reflexivity. Qed.

Example loopback_bytes :
  length (event_bytes (T := linux_le) e_loopback) = sizeof_event.
Proof. reflexivity. Qed.

(** The process-identity members do differ between two captures of one
    socket state when another task is scheduled. *)
Example process_identity_differs :
  exists e1 e2 : event,
    linux_emitted sk_loopback skb_empty k_curl = [(3, e1)] /\
    linux_emitted sk_loopback skb_segment k_sshd = [(0, e2)] /\
    pid e1 <> pid e2 /\ comm e1 <> comm e2.
Proof.
  eexists _, _. split; [vm_compute; reflexivity|].
  split; [vm_compute; reflexivity|].
  split; cbn [pid comm]; discriminate.
Qed.

(** ** The theorems at the loopback connection *)

Lemma ipv4_emits_one_record_witness :
  exists e : event,
    events (snd (linux_probe sk_loopback skb_empty k_curl)) =
      events k_curl ++ [(current_cpu k_curl, e)] /\
    type e = 1.
Proof.
  apply (ipv4_emits_one_record (T := linux_le) sk_loopback skb_empty k_curl).
  - unfold in_range; simpl; lia.
  - reflexivity.
Defined.

Lemma other_families_emit_nothing_witness :
  events (snd (linux_probe sk_loopback6 skb_segment k_sshd)) = events k_sshd.
Proof.
  apply (other_families_emit_nothing (T := linux_le)
           sk_loopback6 skb_segment k_sshd 10).
  - simpl; lia.
  - unfold in_range; simpl; lia.
  - reflexivity.
  - left; reflexivity.
Defined.

Lemma channel_records_populated_ipv4_witness :
  type e_loopback = 1 /\
  exists i : invocation,
    In i history_loopback /\ 3 = inv_cpu i /\
    written_by (T := linux_le) i e_loopback.
Proof.
  apply (channel_records_populated_ipv4 (T := linux_le)
           history_loopback k_idle 3 e_loopback).
  - reflexivity.
  - vm_compute. left. reflexivity.
Defined.

Lemma remote_port_swapped_rest_verbatim_witness :
  dport e_loopback = bpf_ntohs (T := linux_le) 16540 /\
  (host (target := linux_le) = little_endian ->
   dport e_loopback = 256 * (16540 mod 256) + 16540 / 256) /\
  (host (target := linux_le) = big_endian -> dport e_loopback = 16540) /\
  lport e_loopback = 5000 /\
  saddr e_loopback = 16777343 /\ daddr e_loopback = 16777343.
Proof.
  apply (remote_port_swapped_rest_verbatim (T := linux_le)
           sk_loopback skb_empty k_curl 3 e_loopback).
  - left. reflexivity.
  - unfold sock_common_ok, member_ok, in_range; simpl; lia.
  - reflexivity.
  - reflexivity.
  - reflexivity.
  - reflexivity.
Defined.

Lemma capture_twice_same_connection_fields_witness :
  let e2 := mk_event 77 16777343 16777343 5000 40000 1 1
                     (comm_sshd ++ repeat x00 12) in
  saddr e_loopback = saddr e2 /\ daddr e_loopback = daddr e2 /\
  lport e_loopback = lport e2 /\ dport e_loopback = dport e2 /\
  state e_loopback = state e2.
Proof.
  intros e2.
  apply (capture_twice_same_connection_fields (T := linux_le)
           sk_loopback skb_empty skb_segment k_curl k_sshd 3 0 e_loopback e2).
  - left. reflexivity.
  - left. reflexivity.
Defined.

Lemma unreadable_members_reported_as_zero_witness :
  exists e : event,
    linux_emitted sk_unreadable_saddr skb_empty k_curl =
      [(current_cpu k_curl, e)] /\
    (skc_rcv_saddr (__sk_common sk_unreadable_saddr) = None -> saddr e = 0) /\
    (skc_daddr (__sk_common sk_unreadable_saddr) = None -> daddr e = 0) /\
    (skc_num (__sk_common sk_unreadable_saddr) = None -> lport e = 0) /\
    (skc_dport (__sk_common sk_unreadable_saddr) = None -> dport e = 0).
Proof.
  apply (unreadable_members_reported_as_zero (T := linux_le)
           sk_unreadable_saddr skb_empty k_curl).
  - unfold in_range; simpl; lia.
  - reflexivity.
Defined.

Lemma state_fits_a_byte_witness : 0 <= state e_loopback <= 255.
Proof.
  apply (state_fits_a_byte (T := linux_le) sk_loopback skb_empty k_curl 3).
  left. reflexivity.
Defined.

Lemma probe_deterministic_witness :
  fst (linux_probe sk_loopback skb_empty k_curl) =
    fst (linux_probe sk_loopback skb_segment k_curl_thread) /\
  map snd (linux_emitted sk_loopback skb_empty k_curl) =
    map snd (linux_emitted sk_loopback skb_segment k_curl_thread) /\
  map (event_bytes (T := linux_le))
      (map snd (linux_emitted sk_loopback skb_empty k_curl)) =
    map (event_bytes (T := linux_le))
      (map snd (linux_emitted sk_loopback skb_segment k_curl_thread)).
Proof.
  apply (probe_deterministic (T := linux_le)
           sk_loopback sk_loopback skb_empty skb_segment k_curl k_curl_thread).
  - reflexivity.
  - reflexivity.
  - reflexivity.
Defined.

(** C8 as stated fails: with the local address unreadable the probe still
    emits a record, whose source address is 0. *)
Lemma unreadable_address_still_emitted :
  skc_rcv_saddr (__sk_common sk_unreadable_saddr) = None /\
  linux_emitted sk_unreadable_saddr skb_empty k_curl =
    [(3, mk_event 1234 0 16777343 5000 40000 1 1 (comm_curl ++ repeat x00 12))] /\
  ~ (forall (sk : sock) (skb : sk_buff) (k : kernel),
       skc_rcv_saddr (__sk_common sk) = None \/
       skc_daddr (__sk_common sk) = None \/
       skc_num (__sk_common sk) = None \/
       skc_dport (__sk_common sk) = None ->
       linux_emitted sk skb k = []).
Proof.
  split; [reflexivity|]. split; [vm_compute; reflexivity|].
  intros H.
  specialize (H sk_unreadable_saddr skb_empty k_curl (or_introl eq_refl)).
  vm_compute in H. discriminate H.
Qed.

(** * Further properties of the probe *)

Section Further.

Context {T : target}.

(** ** The emission decision *)

(** X1: an invocation emits at most one record, and it emits one exactly
    when the family it reads from the socket equals [AF_INET]; the record
    goes to the slot of the executing CPU. *)
Theorem emission_iff_family_inet (sk : sock) (skb : sk_buff) (k : kernel) :
  (length (emitted sk skb k) <= 1)%nat /\
  (emitted sk skb k <> [] <->
   read_value u16 (skc_family (__sk_common sk)) = AF_INET) /\
  (forall (cpu : Z) (e : event),
     In (cpu, e) (emitted sk skb k) -> cpu = current_cpu k).
Proof.
  destruct (Z.eq_dec (read_value u16 (skc_family (__sk_common sk))) AF_INET)
    as [Hf|Hf].
  - rewrite (emitted_inet _ _ _ Hf). split; [simpl; lia|]. split.
    + split; [intros _; exact Hf | discriminate].
    + intros cpu e [H|[]]. now inversion H.
  - rewrite (emitted_other _ _ _ Hf). split; [simpl; lia|]. split.
    + split; [intros H; now elim H | intros H; now elim Hf].
    + intros cpu e [].
Qed.

(** X3: [read_sock_common] itself never writes to [events]; it returns 1
    when the family it reads equals [AF_INET] and 0 otherwise, so its
    caller's test decides on the family alone. *)
Theorem read_sock_common_returns_flag
    (skc : sock_common) (e : event) (k : kernel) :
  events (snd (read_sock_common skc e k)) = events k /\
  fst (fst (read_sock_common skc e k)) =
    (if read_value u16 (skc_family skc) =? AF_INET then 1 else 0).
Proof.
  destruct (Z.eq_dec (read_value u16 (skc_family skc)) AF_INET) as [Hf|Hf].
  - rewrite (read_sock_common_inet _ _ _ Hf).
    apply Z.eqb_eq in Hf. rewrite Hf. now split.
  - destruct (read_sock_common_other skc e k Hf) as [e' ->].
    apply Z.eqb_neq in Hf. rewrite Hf. now split.
Qed.

(** X4: when the address family cannot be read (a socket pointer through
    which the read fails) and [AF_INET] is not 0, nothing is emitted. *)
Theorem unreadable_family_emits_nothing
    (sk : sock) (skb : sk_buff) (k : kernel) :
  AF_INET <> 0 ->
  skc_family (__sk_common sk) = None ->
  events (snd (tcp_retransmit_skb sk skb k)) = events k.
Proof.
  intros Hnz Hfam.
  assert (Hf : read_value u16 (skc_family (__sk_common sk)) <> AF_INET).
  { rewrite Hfam. cbn [read_value]. congruence. }
  rewrite events_after, (emitted_other _ _ _ Hf). apply app_nil_r.
Qed.

(** ** What the record reports *)

(** X5: the process id in an emitted record is the thread-group id of the
    current task: with [bpf_get_current_pid_tgid] returning
    [tgid << 32 | tid], the shift of line 27 drops the thread id. *)
Theorem reported_pid_is_tgid
    (sk : sock) (skb : sk_buff) (k : kernel) (cpu : Z) (e : event)
    (tgid tid : Z) :
  in_range u32 tgid ->
  in_range u32 tid ->
  current_pid_tgid k = Z.lor (Z.shiftl tgid 32) tid ->
  In (cpu, e) (emitted sk skb k) ->
  pid e = tgid.
Proof.
  unfold in_range. change (2 ^ (8 * sizeof u32)) with (2 ^ 32).
  intros Hg Ht Hk Hin.
  apply emitted_capture in Hin. destruct Hin as (_ & _ & ->).
  unfold capture; cbn [pid]. unfold current_pid. rewrite Hk.
  rewrite Z.lor_comm, lor_shiftl_add by lia.
  rewrite cast_id.
  - rewrite Z.shiftr_div_pow2 by lia.
    rewrite Z.div_add by lia. rewrite Z.div_small by lia. reflexivity.
  - unfold in_range. change (2 ^ (8 * sizeof u64)) with (2 ^ 32 * 2 ^ 32). nia.
Qed.

Lemma bpf_swab16_involutive (x : Z) :
  in_range u16 x -> bpf_swab16 (bpf_swab16 x) = x.
Proof.
  intros Hx. rewrite (bpf_swab16_bytes x Hx).
  unfold in_range in Hx. change (2 ^ (8 * sizeof u16)) with 65536 in Hx.
  pose proof (Z.div_mod x 256 ltac:(lia)) as Hdm.
  pose proof (Z.mod_pos_bound x 256 ltac:(lia)) as Hr.
  assert (Hq : 0 <= x / 256 < 256).
  { split; [apply Z.div_pos; lia | apply Z.div_lt_upper_bound; lia]. }
  set (q := x / 256) in *. set (r := x mod 256) in *.
  rewrite bpf_swab16_bytes
    by (unfold in_range; change (2 ^ (8 * sizeof u16)) with 65536; lia).
  assert (H1 : (256 * r + q) mod 256 = q).
  { symmetry. apply (Z.mod_unique_pos _ _ r); lia. }
  assert (H2 : (256 * r + q) / 256 = r).
  { symmetry. apply (Z.div_unique_pos _ _ r q); lia. }
  rewrite H1, H2. lia.
Qed.

Lemma bpf_ntohs_involutive (x : Z) :
  in_range u16 x -> bpf_ntohs (bpf_ntohs x) = x.
Proof.
  intros Hx. unfold bpf_ntohs. destruct host.
  - now apply bpf_swab16_involutive.
  - rewrite (cast_id u16 x Hx). exact (cast_id u16 x Hx).
Qed.

(** X6: the remote port of an emitted record is the connection's port
    number.  The kernel keeps a port [p] in [skc_dport] in network byte
    order, which a read on this host sees as [bpf_ntohs p] (the 16-bit
    conversion is its own inverse); the record then carries [p]. *)
Theorem reported_remote_port_is_port
    (sk : sock) (skb : sk_buff) (k : kernel) (cpu : Z) (e : event) (p : Z) :
  in_range u16 p ->
  skc_dport (__sk_common sk) = Some (bpf_ntohs p) ->
  In (cpu, e) (emitted sk skb k) ->
  dport e = p.
Proof.
  intros Hp Hdp Hin.
  apply emitted_capture in Hin. destruct Hin as (_ & _ & ->).
  unfold capture; cbn [dport]. rewrite Hdp.
  rewrite read_value_some by apply bpf_ntohs_in_range.
  now apply bpf_ntohs_involutive.
Qed.

(** X7: the connection state of an emitted record is the byte held by
    [skc_state], unchanged by its widening to the 32-bit member. *)
Theorem reported_state_is_skc_state
    (sk : sock) (skb : sk_buff) (k : kernel) (cpu : Z) (e : event) (st : Z) :
  in_range u8 st ->
  skc_state (__sk_common sk) = Some st ->
  In (cpu, e) (emitted sk skb k) ->
  state e = st.
Proof.
  intros Hst Hs Hin.
  apply emitted_capture in Hin. destruct Hin as (_ & _ & ->).
  unfold capture; cbn [state]. rewrite Hs. now apply read_value_some.
Qed.

Lemma copy_comm_last (n : nat) (src : list byte) (d : byte) :
  nth n (copy_comm (S n) src) d = x00.
Proof.
  revert src. induction n as [|n IH]; intros src; [reflexivity|].
  change (copy_comm (S (S n)) src) with
    (match src with
     | [] => x00 :: copy_comm (S n) []
     | c :: rest =>
         if Byte.eqb c x00 then x00 :: copy_comm (S n) []
         else c :: copy_comm (S n) rest
     end).
  destruct src as [|c rest]; [|destruct (Byte.eqb c x00)];
    cbn [nth]; apply IH.
Qed.

Lemma capture_ok (k : kernel) (skc : sock_common) : event_ok (capture k skc).
Proof.
  unfold event_ok, capture;
    cbn [pid saddr daddr lport dport state type comm].
  split; [apply current_pid_in_range|].
  split; [apply read_value_in_range|].
  split; [apply read_value_in_range|].
  split; [apply read_value_in_range|].
  split; [apply bpf_ntohs_in_range|].
  split; [apply widen_u8_u32, read_value_in_range|].
  split; [unfold in_range; simpl; lia|].
  apply copy_comm_length.
Qed.

(** X8: every member of an emitted record holds a value of its C type, and
    [comm] is sixteen bytes of which the last is NUL, however long the
    name of the task is. *)
Theorem emitted_record_well_formed
    (sk : sock) (skb : sk_buff) (k : kernel) (cpu : Z) (e : event) :
  In (cpu, e) (emitted sk skb k) ->
  event_ok e /\ nth 15 (comm e) x01 = x00.
Proof.
  intros Hin. apply emitted_capture in Hin. destruct Hin as (_ & _ & ->).
  split; [apply capture_ok|].
  unfold capture; cbn [comm]. apply (copy_comm_last 15).
Qed.

Lemma copy_comm_nul_free (n : nat) (name : list byte) :
  Forall (fun c => c <> x00) name ->
  copy_comm (S n) name = firstn n name ++ repeat x00 (S n - length (firstn n name)).
Proof.
  revert name. induction n as [|n IH]; intros name Hname; [reflexivity|].
  change (copy_comm (S (S n)) name) with
    (match name with
     | [] => x00 :: copy_comm (S n) []
     | c :: rest =>
         if Byte.eqb c x00 then x00 :: copy_comm (S n) []
         else c :: copy_comm (S n) rest
     end).
  destruct name as [|c rest].
  - rewrite (IH [] (Forall_nil _)). rewrite firstn_nil. reflexivity.
  - inversion Hname as [|? ? Hc Hrest]; subst.
    destruct (Byte.eqb c x00) eqn:E.
    + apply Byte.byte_dec_bl in E. contradiction.
    + rewrite (IH rest Hrest). reflexivity.
Qed.

(** X9: for a task name without NUL bytes the record carries the first
    fifteen bytes of the name (all of it when it is shorter), followed by
    NUL bytes up to the sixteen of [comm]. *)
Theorem reported_comm_is_truncated_name
    (sk : sock) (skb : sk_buff) (k : kernel) (cpu : Z) (e : event) :
  Forall (fun c => c <> x00) (current_comm k) ->
  In (cpu, e) (emitted sk skb k) ->
  comm e = firstn 15 (current_comm k) ++
           repeat x00 (16 - length (firstn 15 (current_comm k))).
Proof.
  intros Hname Hin.
  apply emitted_capture in Hin. destruct Hin as (_ & _ & ->).
  unfold capture; cbn [comm]. now apply (copy_comm_nul_free 15).
Qed.

(** ** The paths that emit nothing *)

(** X10: on the paths that emit nothing [read_sock_common] returns 0 after
    writing only the process identity and, for IPv6, the tag 2: the
    address, port and state members of the buffer are left as they were
    (zero in the probe, whose buffer starts as [{}]). *)
Theorem skipped_socket_leaves_connection_members
    (skc : sock_common) (e : event) (k : kernel) :
  read_value u16 (skc_family skc) <> AF_INET ->
  let r := fst (read_sock_common skc e k) in
  fst r = 0 /\
  pid (snd r) = current_pid k /\
  comm (snd r) = copy_comm sizeof_comm (current_comm k) /\
  type (snd r) =
    (if read_value u16 (skc_family skc) =? AF_INET6 then 2 else type e) /\
  saddr (snd r) = saddr e /\ daddr (snd r) = daddr e /\
  lport (snd r) = lport e /\ dport (snd r) = dport e /\
  state (snd r) = state e.
Proof.
  intros Hf. cbv zeta.
  unfold read_sock_common, bind, ret, BPF_CORE_READ,
    bpf_get_current_pid_tgid, bpf_get_current_comm, log.
  cbn [fst snd current_pid_tgid current_comm].
  apply Z.eqb_neq in Hf. rewrite Hf.
  destruct e as [p sa da lp dp st ty cm].
  destruct (read_value u16 (skc_family skc) =? AF_INET6);
    cbv [fst snd set_pid set_comm set_type
         pid saddr daddr lport dport state type comm];
    fold (current_pid k);
    rewrite (cast_id u32 (current_pid k) (current_pid_in_range k));
    repeat split.
Qed.

(** ** The bytes handed to the channel *)

Lemma byte_of_Z_value (v : Z) : Z.of_N (Byte.to_N (byte_of_Z v)) = v mod 256.
Proof.
  unfold byte_of_Z.
  pose proof (Z.mod_pos_bound v 256 ltac:(lia)) as Hb.
  destruct (Byte.of_N (Z.to_N (v mod 256))) as [b|] eqn:E.
  - apply Byte.to_of_N in E. rewrite E. apply Z2N.id. lia.
  - apply Byte.of_N_None_iff in E. lia.
Qed.

(** Reading back the [n] bytes of a value gives its low [n] bytes. *)
Lemma le_value_le_bytes (n : nat) (v : Z) :
  le_value (le_bytes n v) = v mod 256 ^ Z.of_nat n.
Proof.
  revert v. induction n as [|n IH]; intros v.
  - cbn [le_bytes le_value]. change (256 ^ Z.of_nat 0) with 1.
    now rewrite Z.mod_1_r.
  - cbn [le_bytes le_value]. rewrite byte_of_Z_value, IH.
    rewrite Nat2Z.inj_succ, Z.pow_succ_r by lia.
    rewrite Z.rem_mul_r by (try apply Z.pow_pos_nonneg; lia).
    reflexivity.
Qed.

Lemma int_bytes_inj (n : nat) (a b : Z) :
  0 <= a < 256 ^ Z.of_nat n -> 0 <= b < 256 ^ Z.of_nat n ->
  int_bytes n a = int_bytes n b -> a = b.
Proof.
  intros Ha Hb H.
  assert (Hle : le_bytes n a = le_bytes n b).
  { unfold int_bytes in H. destruct host; [exact H|].
    apply (f_equal (@rev byte)) in H. now rewrite !rev_involutive in H. }
  apply (f_equal le_value) in Hle. rewrite !le_value_le_bytes in Hle.
  now rewrite !Z.mod_small in Hle.
Qed.

Lemma app_same_length_inv {A : Type} (l1 l1' l2 l2' : list A) :
  length l1 = length l1' -> l1 ++ l2 = l1' ++ l2' -> l1 = l1' /\ l2 = l2'.
Proof.
  revert l1'. induction l1 as [|a l1 IH]; intros [|a' l1'] Hlen H;
    try discriminate.
  - now split.
  - cbn [app] in H. injection H as -> H. injection Hlen as Hlen.
    destruct (IH l1' Hlen H) as [-> ->]. now split.
Qed.

Lemma event_bytes_inj (e1 e2 : event) :
  event_ok e1 -> event_ok e2 -> event_bytes e1 = event_bytes e2 -> e1 = e2.
Proof.
  destruct e1 as [p1 sa1 da1 lp1 dp1 st1 ty1 cm1].
  destruct e2 as [p2 sa2 da2 lp2 dp2 st2 ty2 cm2].
  unfold event_ok, event_bytes, in_range;
    cbn [pid saddr daddr lport dport state type comm].
  intros (Hp1 & Hsa1 & Hda1 & Hlp1 & Hdp1 & Hst1 & Hty1 & Hcm1)
         (Hp2 & Hsa2 & Hda2 & Hlp2 & Hdp2 & Hst2 & Hty2 & Hcm2) H.
  apply app_same_length_inv in H; [|now rewrite !int_bytes_length].
  destruct H as [Ep H].
  apply app_same_length_inv in H; [|now rewrite !int_bytes_length].
  destruct H as [Esa H].
  apply app_same_length_inv in H; [|now rewrite !int_bytes_length].
  destruct H as [Eda H].
  apply app_same_length_inv in H; [|now rewrite !int_bytes_length].
  destruct H as [Elp H].
  apply app_same_length_inv in H; [|now rewrite !int_bytes_length].
  destruct H as [Edp H].
  apply app_same_length_inv in H; [|now rewrite !int_bytes_length].
  destruct H as [Est H].
  apply app_same_length_inv in H; [|now rewrite !int_bytes_length].
  destruct H as [Ety H].
  apply app_same_length_inv in H; [|congruence].
  destruct H as [Ecm _].
  apply int_bytes_inj in Ep; [|exact Hp1|exact Hp2].
  apply int_bytes_inj in Esa; [|exact Hsa1|exact Hsa2].
  apply int_bytes_inj in Eda; [|exact Hda1|exact Hda2].
  apply int_bytes_inj in Elp; [|exact Hlp1|exact Hlp2].
  apply int_bytes_inj in Edp; [|exact Hdp1|exact Hdp2].
  apply int_bytes_inj in Est; [|exact Hst1|exact Hst2].
  apply int_bytes_inj in Ety; [|exact Hty1|exact Hty2].
  congruence.
Qed.

(** X11: the image of an emitted record fills the [sizeof(e)] = 40 bytes
    that line 59 hands to [bpf_perf_event_output], and it determines the
    record: two emitted records with the same bytes have the same
    members, so a consumer can decode what it receives. *)
Theorem emitted_bytes_determine_record
    (sk1 sk2 : sock) (skb1 skb2 : sk_buff) (k1 k2 : kernel)
    (cpu1 cpu2 : Z) (e1 e2 : event) :
  In (cpu1, e1) (emitted sk1 skb1 k1) ->
  In (cpu2, e2) (emitted sk2 skb2 k2) ->
  length (event_bytes e1) = sizeof_event /\
  (event_bytes e1 = event_bytes e2 -> e1 = e2).
Proof.
  intros H1 H2.
  apply emitted_capture in H1. destruct H1 as (_ & _ & ->).
  apply emitted_capture in H2. destruct H2 as (_ & _ & ->).
  split; [apply capture_bytes_length|].
  apply event_bytes_inj; apply capture_ok.
Qed.

(** ** Several retransmissions *)

Lemma family_is_inet_true (sk : sock) :
  family_is_inet sk = true ->
  read_value u16 (skc_family (__sk_common sk)) = AF_INET.
Proof. apply Z.eqb_eq. Qed.

Lemma family_is_inet_false (sk : sock) :
  family_is_inet sk = false ->
  read_value u16 (skc_family (__sk_common sk)) <> AF_INET.
Proof. apply Z.eqb_neq. Qed.

(** X12: a run of retransmissions adds to [events] exactly one record for
    each of them whose socket reads as IPv4 and none for the others, and
    the records that were there before stay in front, in their order. *)
Theorem run_probes_one_record_per_inet
    (l : list (sock * sk_buff)) (k : kernel) :
  length (events (run_probes l k)) =
    (length (events k) +
     length (filter (fun p => family_is_inet (fst p)) l))%nat /\
  firstn (length (events k)) (events (run_probes l k)) = events k.
Proof.
  revert k. induction l as [|[sk skb] l IH]; intros k.
  - cbn [run_probes filter length]. split; [lia | apply firstn_all].
  - cbn [run_probes filter fst].
    destruct (IH (snd (tcp_retransmit_skb sk skb k))) as [Hlen Hpre].
    rewrite events_after in Hlen, Hpre.
    rewrite length_app in Hlen, Hpre.
    split.
    + rewrite Hlen.
      destruct (family_is_inet sk) eqn:E.
      * rewrite (emitted_inet _ _ _ (family_is_inet_true _ E)).
        cbn [length]. lia.
      * rewrite (emitted_other _ _ _ (family_is_inet_false _ E)).
        cbn [length]. lia.
    + apply (f_equal (firstn (length (events k)))) in Hpre.
      rewrite firstn_firstn in Hpre.
      rewrite Nat.min_l in Hpre by lia.
      rewrite Hpre. rewrite firstn_app, Nat.sub_diag, firstn_all.
      cbn [firstn]. apply app_nil_r.
Qed.

(** X13: in every state reached since the probe was attached, each record
    in [events] is well formed (every member a value of its C type, [comm]
    sixteen bytes) and its image has the 40 bytes of [struct event]. *)
Theorem channel_records_well_formed (k : kernel) (cpu : Z) (e : event) :
  reachable k ->
  In (cpu, e) (events k) ->
  event_ok e /\ length (event_bytes e) = sizeof_event.
Proof.
  intros Hreach. revert cpu e.
  induction Hreach as [pt name c | pt name c k Hk IH | sk skb k Hk IH];
    intros cpu e Hin.
  - destruct Hin.
  - exact (IH cpu e Hin).
  - rewrite events_after in Hin. apply in_app_or in Hin.
    destruct Hin as [Hin|Hin]; [exact (IH cpu e Hin)|].
    apply emitted_capture in Hin. destruct Hin as (_ & _ & ->).
    split; [apply capture_ok | apply capture_bytes_length].
Qed.

End Further.

(** ** The further properties at the loopback connection *)

Lemma unreadable_family_emits_nothing_witness :
  events (snd (linux_probe sk_unreadable skb_empty k_sshd)) = events k_sshd.
Proof.
  apply (unreadable_family_emits_nothing (T := linux_le)
           sk_unreadable skb_empty k_sshd).
  - simpl; lia.
  - reflexivity.
Defined.

Lemma reported_pid_is_tgid_witness : pid e_loopback = 1234.
Proof.
  apply (reported_pid_is_tgid (T := linux_le)
           sk_loopback skb_empty k_curl 3 e_loopback 1234 1240).
  - unfold in_range; simpl; lia.
  - unfold in_range; simpl; lia.
  - reflexivity.
  - left. reflexivity.
Defined.

Lemma reported_remote_port_is_port_witness : dport e_loopback = 40000.
Proof.
  apply (reported_remote_port_is_port (T := linux_le)
           sk_loopback skb_empty k_curl 3 e_loopback 40000).
  - unfold in_range; simpl; lia.
  - reflexivity.
  - left. reflexivity.
Defined.

Lemma reported_state_is_skc_state_witness : state e_loopback = 1.
Proof.
  apply (reported_state_is_skc_state (T := linux_le)
           sk_loopback skb_empty k_curl 3 e_loopback 1).
  - unfold in_range; simpl; lia.
  - reflexivity.
  - left. reflexivity.
Defined.

Lemma emitted_record_well_formed_witness :
  event_ok e_loopback /\ nth 15 (comm e_loopback) x01 = x00.
Proof.
  apply (emitted_record_well_formed (T := linux_le)
           sk_loopback skb_empty k_curl 3 e_loopback).
  left. reflexivity.
Defined.

Lemma reported_comm_is_truncated_name_witness :
  comm e_loopback =
    firstn 15 comm_curl ++ repeat x00 (16 - length (firstn 15 comm_curl)).
Proof.
  apply (reported_comm_is_truncated_name (T := linux_le)
           sk_loopback skb_empty k_curl 3 e_loopback).
  - repeat constructor; discriminate.
  - left. reflexivity.
Defined.

Lemma skipped_socket_leaves_connection_members_witness :
  let r := fst (read_sock_common (T := linux_le)
                  (__sk_common sk_loopback6) e_loopback k_sshd) in
  fst r = 0 /\
  pid (snd r) = current_pid k_sshd /\
  comm (snd r) = copy_comm sizeof_comm (current_comm k_sshd) /\
  type (snd r) = 2 /\
  saddr (snd r) = saddr e_loopback /\ daddr (snd r) = daddr e_loopback /\
  lport (snd r) = lport e_loopback /\ dport (snd r) = dport e_loopback /\
  state (snd r) = state e_loopback.
Proof.
  apply (skipped_socket_leaves_connection_members (T := linux_le)
           (__sk_common sk_loopback6) e_loopback k_sshd).
  vm_compute. discriminate.
Defined.

Lemma emitted_bytes_determine_record_witness :
  length (event_bytes (T := linux_le) e_loopback) = sizeof_event /\
  (event_bytes (T := linux_le) e_loopback =
     event_bytes (T := linux_le) e_loopback ->
   e_loopback = e_loopback).
Proof.
  apply (emitted_bytes_determine_record (T := linux_le)
           sk_loopback sk_loopback skb_empty skb_segment k_curl k_curl
           3 3 e_loopback e_loopback).
  - left. reflexivity.
  - left. reflexivity.
Defined.

Lemma channel_records_well_formed_witness :
  event_ok e_loopback /\
  length (event_bytes (T := linux_le) e_loopback) = sizeof_event.
Proof.
  apply (channel_records_well_formed (T := linux_le)
           (snd (linux_probe sk_loopback6 skb_segment
                   (snd (linux_probe sk_loopback skb_empty k_curl))))
           3 e_loopback).
  - apply reach_probe. apply reach_probe. apply reach_attach.
  - left. reflexivity.
Defined.

(** A record with the connection members wiped is not what the loopback
    invocation wrote: [written_by] tells the two apart. *)
Example wiped_record_not_written :
  ~ written_by (T := linux_le)
      (mk_invocation (1234 * 4294967296 + 1240) comm_curl 3
                     sk_loopback skb_empty)
      (mk_event 1234 0 0 0 0 0 1 (comm_curl ++ repeat x00 12)).
Proof.
  intros H. specialize (H event_zero k_curl eq_refl eq_refl).
  assert (E : fst (read_sock_common (T := linux_le) (__sk_common sk_loopback)
                     event_zero k_curl) = (1, e_loopback))
    by (vm_compute; reflexivity).
  cbn [inv_sk] in H. rewrite E in H. discriminate H.
Qed.
